(** * verify_json.py: a batch check that locale files parse as JSON

    The script walks a fixed list of two paths.  For each path it opens the
    file as UTF-8 text inside a [with] block, hands the handle to
    [json.load], and prints [OK: <path>]; any [Exception] raised on the way
    is caught and reported as [ERROR: <path>] followed by [str(e)].

    The embedding is a state-and-exception monad over a [world] that holds
    the filesystem, the table of open handles, the bytes written to standard
    output and a trace of the effects performed.  The three library calls the
    script relies on ([open], the UTF-8 decoding done by [fp.read()], and
    [json.loads]) belong to the Python runtime, not to the script; they are
    the fields of the [Runtime] class below. *)

From Stdlib Require Import Strings.String Strings.Ascii Init.Byte ZArith.
From stdpp Require Import base option list gmap strings.

(** ** Text *)

(** The line terminator [print] writes. *)
Definition newline : string := String "010"%char EmptyString.

(** Concatenation of a list of blocks of text, in list order. *)
Fixpoint join (blocks : list string) : string :=
  match blocks with
  | [] => ""
  | b :: rest => b +:+ join rest
  end.

(** ** Exceptions *)

(** The classes below [Exception] that [open], [fp.read()] and [json.loads]
    raise. *)
Inductive exception_class :=
  | OSError
  | FileNotFoundError
  | PermissionError
  | IsADirectoryError
  | ValueError
  | UnicodeDecodeError
  | JSONDecodeError
  | RecursionError
  | MemoryError.

(** [BaseException] has direct subclasses that are not [Exception]s, such as
    the one raised when the user interrupts the process; an
    [except Exception] clause lets those through. *)
Inductive py_class :=
  | KeyboardInterrupt
  | Exception (c : exception_class).

(** A raised exception object: its class and the text [str(e)] returns. *)
Record exn := Exn { exn_class : py_class; exn_str : string }.

(** What a library call reports when it fails: always below [Exception]. *)
Record failure := Failure { failure_class : exception_class; failure_str : string }.

Definition exn_of (x : failure) : exn :=
  Exn (Exception (failure_class x)) (failure_str x).

(** [isinstance(e, Exception)] *)
Definition isinstance_Exception (e : exn) : bool :=
  match exn_class e with
  | Exception _ => true
  | _ => false
  end.

(** ** The world *)

(** What [json.loads] builds; the script throws the value away. *)
#[local] Unset Elimination Schemes.
Inductive json :=
  | JNull
  | JBool (b : bool)
  | JNumber (literal : string)
  | JString (s : string)
  | JArray (items : list json)
  | JObject (members : list (string * json)).
#[local] Set Elimination Schemes.

(** A directory entry, as far as [open] and [read] can tell. *)
Inductive fs_entry :=
  | Regular (data : list byte)   (* a readable regular file and its bytes *)
  | Refused (err : failure)      (* open() fails: no permission, a directory, ... *)
  | Faulty (err : failure).      (* open() succeeds and read() fails: an I/O error,
                                    or contents that do not fit in memory *)

Inductive open_mode := ModeRead | ModeWrite.

Inductive event :=
  | EvOpen (f : string) (m : open_mode) (h : nat)
  | EvRead (h : nat)
  | EvClose (h : nat)
  | EvStdout (text : string).

Record world := World {
  w_fs : gmap string fs_entry;              (* a path with no entry is missing *)
  w_handles : gmap nat (open_mode * fs_entry);
  w_stdout : string;
  w_trace : list event
}.

Definition set_fs (fs : gmap string fs_entry) (w : world) : world :=
  World fs (w_handles w) (w_stdout w) (w_trace w).
Definition set_handles (hs : gmap nat (open_mode * fs_entry)) (w : world) : world :=
  World (w_fs w) hs (w_stdout w) (w_trace w).
Definition set_stdout (s : string) (w : world) : world :=
  World (w_fs w) (w_handles w) s (w_trace w).
Definition log (ev : event) (w : world) : world :=
  World (w_fs w) (w_handles w) (w_stdout w) (w_trace w ++ [ev]).

(** ** The monad: state passing with exceptions *)

Inductive outcome (A : Type) :=
  | Normal (a : A)
  | Raised (e : exn).
Arguments Normal {A} a.
Arguments Raised {A} e.

Definition M (A : Type) : Type := world -> outcome A * world.

Definition ret {A} (a : A) : M A := fun w => (Normal a, w).
Definition raise {A} (e : exn) : M A := fun w => (Raised e, w).
Definition bind {A B} (m : M A) (k : A -> M B) : M B :=
  fun w =>
    match m w with
    | (Normal a, w1) => k a w1
    | (Raised e, w1) => (Raised e, w1)
    end.

Declare Scope py_scope.
Delimit Scope py_scope with py.
Notation "x <- m ;; k" := (bind m (fun x => k))
  (at level 100, m at next level, k at level 200, right associativity) : py_scope.
Notation "m ;; k" := (bind m (fun _ => k))
  (at level 100, k at level 200, right associativity) : py_scope.
Local Open Scope py_scope.

(** [try: body  except Exception as e: handler(e)] *)
Definition try_except_Exception (body : M unit) (handler : exn -> M unit) : M unit :=
  fun w =>
    match body w with
    | (Normal a, w1) => (Normal a, w1)
    | (Raised e, w1) =>
        if isinstance_Exception e then handler e w1 else (Raised e, w1)
    end.

(** [for x in l: body(x)] *)
Fixpoint for_each (l : list string) (body : string -> M unit) : M unit :=
  match l with
  | [] => ret tt
  | x :: rest => body x ;; for_each rest body
  end.

(** How the process ends. *)
Inductive termination :=
  | Exit (status : Z)
  | Interrupted.

(** ** The Python runtime *)

Class Runtime := {
  (* the error open() raises for a path that has no entry *)
  open_missing : string -> failure;
  (* the decoding fp.read() applies to the bytes of a file opened with
     encoding='utf-8' *)
  utf8_decode : list byte -> failure + string;
  (* json.loads *)
  json_loads : string -> failure + json
}.

(** Reading from a handle that was opened for writing. *)
Definition not_readable : failure := Failure OSError "not readable".
(** Using a handle after [close]. *)
Definition closed_file : exn :=
  Exn (Exception OSError) "I/O operation on closed file.".

Section Program.
Context `{Runtime}.

Definition lift {A} (r : failure + A) : M A :=
  match r with
  | inl err => raise (exn_of err)
  | inr a => ret a
  end.

(** [open(f, mode, encoding='utf-8')]: the handle is a number not in use. *)
Definition py_open (f : string) (m : open_mode) : M nat :=
  fun w =>
    let h := fresh (dom (w_handles w)) in
    match m, w_fs w !! f with
    | ModeRead, None => (Raised (exn_of (open_missing f)), w)
    | _, Some (Refused err) => (Raised (exn_of err), w)
    | ModeRead, Some entry =>
        (Normal h, log (EvOpen f ModeRead h) (set_handles (<[h := (ModeRead, entry)]> (w_handles w)) w))
    | ModeWrite, _ =>
        (Normal h,
         log (EvOpen f ModeWrite h)
           (set_handles (<[h := (ModeWrite, Regular [])]> (w_handles w))
              (set_fs (<[f := Regular []]> (w_fs w)) w)))
    end.

(** [fp.read()] *)
Definition fp_read (fp : nat) : M string :=
  fun w =>
    match w_handles w !! fp with
    | None => (Raised closed_file, w)
    | Some (ModeWrite, _) => (Raised (exn_of not_readable), w)
    | Some (ModeRead, Refused err) => (Raised (exn_of err), log (EvRead fp) w)
    | Some (ModeRead, Faulty err) => (Raised (exn_of err), log (EvRead fp) w)
    | Some (ModeRead, Regular data) => lift (utf8_decode data) (log (EvRead fp) w)
    end.

(** [fp.close()], which is what the handle's [__exit__] does. *)
Definition fp_close (fp : nat) : M unit :=
  fun w => (Normal tt, log (EvClose fp) (set_handles (delete fp (w_handles w)) w)).

(** [with open(f, mode, encoding='utf-8') as fp: body(fp)].  When [open]
    raises there is no handle and nothing to release; otherwise the handle
    is closed whether the body returns or raises, and an exception of the
    body is raised again after the close. *)
Definition with_open {A} (f : string) (m : open_mode) (body : nat -> M A) : M A :=
  fun w =>
    match py_open f m w with
    | (Raised e, w1) => (Raised e, w1)
    | (Normal fp, w1) =>
        let '(r, w2) := body fp w1 in
        let '(_, w3) := fp_close fp w2 in
        (r, w3)
    end.

(** [json.load(fp)] is [json.loads(fp.read())]. *)
Definition json_load (fp : nat) : M json :=
  text <- fp_read fp ;; lift (json_loads text).

(** [print(s)]: the text and a newline go to standard output, which is
    taken to be open and able to encode the text. *)
Definition print (s : string) : M unit :=
  fun w =>
    let text := s +:+ newline in
    (Normal tt, log (EvStdout text) (set_stdout (w_stdout w +:+ text) w)).

(** ** The script *)

Definition files : list string :=
  [ "d:/download/VRC-Worlds-Manager-v2-vrc-world-manager-v1.3.0-rc.0/locales/ja-JP.json";
    "d:/download/VRC-Worlds-Manager-v2-vrc-world-manager-v1.3.0-rc.0/locales/en-US.json" ].

(** The suite of the [try]. *)
Definition attempt (f : string) : M unit :=
  with_open f ModeRead (fun fp => json_load fp) ;;
  print ("OK: " +:+ f).

(** The suite of the [except Exception as e]. *)
Definition report_error (f : string) (e : exn) : M unit :=
  print ("ERROR: " +:+ f) ;;
  print (exn_str e).

(** The body of the [for] loop. *)
Definition check_file (f : string) : M unit :=
  try_except_Exception (attempt f) (report_error f).

(** The loop over an arbitrary list of paths. *)
Definition run (paths : list string) : M unit := for_each paths check_file.

(** The module body. *)
Definition script : M unit := run files.

(** The interpreter exits with 0 when the module body returns, with 1 after
    printing a traceback when an [Exception] leaves it, and is ended by the
    interrupt signal when a [KeyboardInterrupt] does. *)
Definition exit_status (r : outcome unit) : termination :=
  match r with
  | Normal _ => Exit 0
  | Raised e =>
      match exn_class e with
      | Exception _ => Exit 1
      | KeyboardInterrupt => Interrupted
      end
  end.

Definition main (w : world) : termination * world :=
  let '(r, w1) := script w in (exit_status r, w1).

(** *** What a computation writes

    The text a computation adds to standard output is read off by running
    it on the same world with an empty output buffer. *)
Definition console {A} (m : M A) (w : world) : string :=
  w_stdout (snd (m (set_stdout "" w))).

(** The report block of each path of a run, in the order the loop reaches
    them; the list stops where an exception leaves the loop. *)
Fixpoint run_blocks (paths : list string) (w : world) : list string :=
  match paths with
  | [] => []
  | f :: rest =>
      console (check_file f) w ::
      match check_file f w with
      | (Normal _, w1) => run_blocks rest w1
      | (Raised _, _) => []
      end
  end.

(** *** The closed form of one pass

    What opening, reading, decoding and parsing [f] comes to. *)
Definition inspect (fs : gmap string fs_entry) (f : string) : failure + json :=
  match fs !! f with
  | None => inl (open_missing f)
  | Some (Refused err) => inl err
  | Some (Faulty err) => inl err
  | Some (Regular data) =>
      match utf8_decode data with
      | inl err => inl err
      | inr text => json_loads text
      end
  end.

(** The arguments of the [print] calls a result leads to. *)
Definition report_lines (r : failure + json) (f : string) : list string :=
  match r with
  | inr _ => ["OK: " +:+ f]
  | inl err => ["ERROR: " +:+ f; failure_str err]
  end.

Definition block_of (lines : list string) : string :=
  join (map (fun l => l +:+ newline) lines).

(** The file effects of one pass: none when [open] raises. *)
Definition file_events (hs : gmap nat (open_mode * fs_entry))
    (fs : gmap string fs_entry) (f : string) : list event :=
  let h := fresh (dom hs) in
  match fs !! f with
  | None | Some (Refused _) => []
  | Some _ => [EvOpen f ModeRead h; EvRead h; EvClose h]
  end.

Definition step_events (hs : gmap nat (open_mode * fs_entry))
    (fs : gmap string fs_entry) (f : string) : list event :=
  file_events hs fs f ++
  map (fun l => EvStdout (l +:+ newline)) (report_lines (inspect fs f) f).

(** The ways a path fails, by the stage that raises. *)
Inductive fails_with (fs : gmap string fs_entry) (f : string) : failure -> Prop :=
  | Missing :
      fs !! f = None -> fails_with fs f (open_missing f)
  | Unopenable err :
      fs !! f = Some (Refused err) -> fails_with fs f err
  | Unreadable err :
      fs !! f = Some (Faulty err) -> fails_with fs f err
  | Undecodable data err :
      fs !! f = Some (Regular data) -> utf8_decode data = inl err ->
      fails_with fs f err
  | InvalidJSON data text err :
      fs !! f = Some (Regular data) -> utf8_decode data = inr text ->
      json_loads text = inl err -> fails_with fs f err.

End Program.

(** ** Reading a trace *)

(** The writes to standard output, in order. *)
Fixpoint stdout_writes (evs : list event) : list string :=
  match evs with
  | [] => []
  | EvStdout text :: rest => text :: stdout_writes rest
  | _ :: rest => stdout_writes rest
  end.

(** No handle is open when something is printed, nor at the end.
    [opened] lists the handles open so far. *)
Fixpoint released_before_print (opened : list nat) (evs : list event) : bool :=
  match evs with
  | [] => match opened with [] => true | _ => false end
  | EvOpen _ _ h :: rest => released_before_print (h :: opened) rest
  | EvRead _ :: rest => released_before_print opened rest
  | EvClose h :: rest =>
      released_before_print (filter (fun h' => negb (Nat.eqb h' h)) opened) rest
  | EvStdout _ :: rest =>
      match opened with
      | [] => released_before_print [] rest
      | _ => false
      end
  end.

(** Nothing is opened for writing. *)
Definition opens_read_only (evs : list event) : bool :=
  forallb (fun ev => match ev with EvOpen _ ModeWrite _ => false | _ => true end) evs.

(** *** The life of a handle

    The file operations of the script follow one cycle per file: with no
    handle in use a file is opened for reading, the handle is read once,
    and it is closed; printing happens only between cycles. *)
Inductive io_state :=
  | Idle
  | Opened (h : nat)
  | Drained (h : nat).

Definition io_step (st : io_state) (ev : event) : option io_state :=
  match st, ev with
  | Idle, EvOpen _ ModeRead h => Some (Opened h)
  | Idle, EvStdout _ => Some Idle
  | Opened h, EvRead h' => if Nat.eqb h h' then Some (Drained h) else None
  | Drained h, EvClose h' => if Nat.eqb h h' then Some Idle else None
  | _, _ => None
  end.

(** The state a trace leads to, or [None] when it leaves the cycle. *)
Fixpoint io_run (st : io_state) (evs : list event) : option io_state :=
  match evs with
  | [] => Some st
  | ev :: rest =>
      match io_step st ev with
      | Some st' => io_run st' rest
      | None => None
      end
  end.

(** The number of files a trace opens. *)
Fixpoint opens (evs : list event) : nat :=
  match evs with
  | [] => 0
  | EvOpen _ _ _ :: rest => S (opens rest)
  | _ :: rest => opens rest
  end.

Section Verdicts.
Context `{Runtime}.

(** Whether [f] opens, decodes and parses. *)
Definition passes (fs : gmap string fs_entry) (f : string) : bool :=
  match inspect fs f with
  | inr _ => true
  | inl _ => false
  end.

(** Whether [open] hands out a handle for [f]. *)
Definition openable (fs : gmap string fs_entry) (f : string) : bool :=
  match fs !! f with
  | None | Some (Refused _) => false
  | Some _ => true
  end.

(** The [try] suite of the script with the user's interrupt arriving while
    [g] is being checked. *)
Definition attempt_interrupted_at (g : string) (f : string) : M unit :=
  if String.eqb f g then raise (Exn KeyboardInterrupt "") else attempt f.

End Verdicts.

(** ** A runtime for the scenarios

    It answers as CPython does on the files of the scenarios below and is
    used only to run them: ASCII bytes decode to themselves, the lone byte
    0xff does not decode, and the one text that parses is the object of
    [a.json]. *)

Definition bytes_a_json : list byte :=   (* {"k": "v"} *)
  [x7b; x22; x6b; x22; x3a; x20; x22; x76; x22; x7d].
Definition bytes_b_json : list byte :=   (* {"k": } *)
  [x7b; x22; x6b; x22; x3a; x20; x7d].
Definition bytes_c_json : list byte := [xff].

Definition scenario_open_missing (f : string) : failure :=
  Failure FileNotFoundError ("[Errno 2] No such file or directory: '" +:+ f +:+ "'").

Definition scenario_utf8_decode (data : list byte) : failure + string :=
  if forallb (fun b => N.ltb (Byte.to_N b) 128) data
  then inr (string_of_list_byte data)
  else inl (Failure UnicodeDecodeError
              "'utf-8' codec can't decode byte 0xff in position 0: invalid start byte").

Definition scenario_json_loads (text : string) : failure + json :=
  if String.eqb text (string_of_list_byte bytes_a_json)
  then inr (JObject [("k", JString "v")])
  else inl (Failure JSONDecodeError "Expecting value: line 1 column 7 (char 6)").

Definition scenario_runtime : Runtime :=
  {| open_missing := scenario_open_missing;
     utf8_decode := scenario_utf8_decode;
     json_loads := scenario_json_loads |}.

Definition scenario_fs : gmap string fs_entry :=
  <["a.json" := Regular bytes_a_json]>
  (<["b.json" := Regular bytes_b_json]>
  (<["c.json" := Regular bytes_c_json]>
  (<["locked.json" := Refused (Failure PermissionError "[Errno 13] Permission denied: 'locked.json'")]>
  (<["big.json" := Faulty (Failure MemoryError "")]> ∅)))).

Definition scenario_world : world := World scenario_fs ∅ "" [].

(** Another state of the machine with the same [a.json]: other files, a
    handle already open, earlier output. *)
Definition other_world : world :=
  World (<["a.json" := Regular bytes_a_json]> ∅)
        (<[0 := (ModeRead, Regular [])]> ∅)
        "earlier output"
        [EvStdout "earlier output"].

(** The scenario's files on a machine that has a handle open and has
    already printed something. *)
Definition busy_world : world :=
  World scenario_fs
        (<[0 := (ModeRead, Regular [])]> ∅)
        "earlier output"
        [EvStdout "earlier output"].

(** * Properties *)

(** ** Text *)

Lemma string_app_cons (a : ascii) (s t : string) :
  String a s +:+ t = String a (s +:+ t).
Proof. reflexivity. Qed.

Lemma string_app_nil_r (s : string) : s +:+ "" = s.
Proof.
  induction s as [|a s IH]; [reflexivity|].
  now rewrite string_app_cons, IH.
Qed.

Lemma string_app_assoc (s t u : string) : (s +:+ t) +:+ u = s +:+ t +:+ u.
Proof.
  induction s as [|a s IH]; [reflexivity|].
  now rewrite !string_app_cons, IH.
Qed.

Lemma join_app (xs ys : list string) : join (xs ++ ys) = join xs +:+ join ys.
Proof.
  induction xs as [|x xs IH]; [reflexivity|].
  cbn [join app]. now rewrite IH, string_app_assoc.
Qed.

Lemma string_app_newline_inv (s : string) : s +:+ newline = newline -> s = "".
Proof.
  destruct s as [|a [|b s]]; [reflexivity | discriminate | discriminate].
Qed.

Lemma lookup_map {A B} (g : A -> B) (l : list A) (i : nat) (x : A) :
  l !! i = Some x -> map g l !! i = Some (g x).
Proof.
  revert i. induction l as [|y l IH]; intros [|i]; cbn; try discriminate.
  - now intros [= ->].
  - apply IH.
Qed.

(** ** Traces *)

Lemma released_before_print_app (opened : list nat) (evs evs' : list event) :
  released_before_print opened evs = true ->
  released_before_print [] evs' = true ->
  released_before_print opened (evs ++ evs') = true.
Proof.
  revert opened. induction evs as [|ev evs IH]; intros opened Hevs Hevs'.
  - destruct opened; [exact Hevs' | discriminate].
  - destruct ev; cbn in *; auto.
    destruct opened; [auto | discriminate].
Qed.

Lemma opens_read_only_app (evs evs' : list event) :
  opens_read_only (evs ++ evs') = opens_read_only evs && opens_read_only evs'.
Proof. apply forallb_app. Qed.

Section Properties.
Context `{Runtime}.

(** ** One pass of the loop body *)

Lemma fresh_handle_unused (hs : gmap nat (open_mode * fs_entry)) :
  hs !! fresh (dom hs) = None.
Proof. apply not_elem_of_dom, is_fresh. Qed.

Lemma check_file_closed_form (f : string) (w : world) :
  check_file f w =
    (Normal tt,
     World (w_fs w) (w_handles w)
       (w_stdout w +:+ block_of (report_lines (inspect (w_fs w) f) f))
       (w_trace w ++ step_events (w_handles w) (w_fs w) f)).
Proof.
  destruct w as [fs hs out tr].
  pose proof (fresh_handle_unused hs) as Hfresh.
  unfold check_file, attempt, report_error, try_except_Exception, bind, with_open,
    py_open, json_load, bind, fp_read, fp_close, print, step_events, file_events,
    inspect, block_of, log, set_handles, set_stdout;
    cbn [w_fs w_handles w_stdout w_trace].
  destruct (fs !! f) as [[data|err|err]|] eqn:Hf;
    cbn [w_fs w_handles w_stdout w_trace];
    rewrite ?lookup_insert_eq; cbn [w_fs w_handles w_stdout w_trace].
  - destruct (utf8_decode data) as [err|text]; cbn.
    + rewrite delete_insert_id by exact Hfresh.
      rewrite !string_app_nil_r, <- !app_assoc, !string_app_assoc. reflexivity.
    + destruct (json_loads text) as [err|v]; cbn;
        rewrite delete_insert_id by exact Hfresh;
        rewrite ?string_app_nil_r, <- ?app_assoc, ?string_app_assoc; reflexivity.
  - cbn. rewrite !string_app_nil_r, <- !app_assoc, !string_app_assoc. reflexivity.
  - cbn. rewrite delete_insert_id by exact Hfresh.
    rewrite !string_app_nil_r, <- !app_assoc, !string_app_assoc. reflexivity.
  - cbn. rewrite !string_app_nil_r, <- !app_assoc, !string_app_assoc. reflexivity.
Qed.

Lemma block_of_ok (f : string) (v : json) :
  block_of (report_lines (inr v) f) = "OK: " +:+ f +:+ newline.
Proof.
  unfold block_of. cbn [report_lines map join]. now rewrite string_app_nil_r.
Qed.

Lemma block_of_error (f : string) (err : failure) :
  block_of (report_lines (inl err) f) =
    "ERROR: " +:+ f +:+ newline +:+ failure_str err +:+ newline.
Proof.
  unfold block_of. cbn [report_lines map join].
  now rewrite string_app_nil_r, !string_app_assoc.
Qed.

Lemma console_check_file (f : string) (w : world) :
  console (check_file f) w = block_of (report_lines (inspect (w_fs w) f) f).
Proof. unfold console. rewrite check_file_closed_form. reflexivity. Qed.

Lemma fails_with_inspect (fs : gmap string fs_entry) (f : string) (err : failure) :
  fails_with fs f err <-> inspect fs f = inl err.
Proof.
  unfold inspect. split.
  - intros [Hf|e Hf|e Hf|data e Hf Hd|data text e Hf Hd Hj]; rewrite Hf; try reflexivity.
    + now rewrite Hd.
    + now rewrite Hd.
  - destruct (fs !! f) as [[data|e|e]|] eqn:Hf.
    + destruct (utf8_decode data) as [e|text] eqn:Hd.
      * intros [= <-]. eapply Undecodable; eauto.
      * intros Hj. eapply InvalidJSON; eauto.
    + intros [= <-]. now apply Unopenable.
    + intros [= <-]. now apply Unreadable.
    + intros [= <-]. now apply Missing.
Qed.

(** ** The loop *)

Lemma run_closed_form (paths : list string) (w : world) :
  run paths w =
    (Normal tt,
     World (w_fs w) (w_handles w)
       (w_stdout w +:+
          join (map (fun f => block_of (report_lines (inspect (w_fs w) f) f)) paths))
       (w_trace w ++
          concat (map (step_events (w_handles w) (w_fs w)) paths))).
Proof.
  revert w. induction paths as [|f rest IH]; intros w.
  - cbn. rewrite string_app_nil_r, app_nil_r. now destruct w.
  - unfold run in *. cbn [for_each]. unfold bind at 1.
    rewrite check_file_closed_form, IH.
    cbn [w_fs w_handles w_stdout w_trace map join concat].
    now rewrite string_app_assoc, <- app_assoc.
Qed.

Lemma console_run (paths : list string) (w : world) :
  console (run paths) w =
    join (map (fun f => block_of (report_lines (inspect (w_fs w) f) f)) paths).
Proof. unfold console. rewrite run_closed_form. reflexivity. Qed.

Lemma run_blocks_closed_form (paths : list string) (w : world) :
  run_blocks paths w = map (fun f => console (check_file f) w) paths.
Proof.
  revert w. induction paths as [|f rest IH]; intros w; [reflexivity|].
  cbn [run_blocks map]. rewrite check_file_closed_form, IH. f_equal.
  apply map_ext. intros g. now rewrite !console_check_file.
Qed.


Lemma inspect_local (fs fs' : gmap string fs_entry) (f : string) :
  fs !! f = fs' !! f -> inspect fs f = inspect fs' f.
Proof. unfold inspect. now intros ->. Qed.

Lemma attempt_closed_form (f : string) (w : world) :
  attempt f w =
    let w1 := World (w_fs w) (w_handles w) (w_stdout w)
                (w_trace w ++ file_events (w_handles w) (w_fs w) f) in
    match inspect (w_fs w) f with
    | inr _ => print ("OK: " +:+ f) w1
    | inl err => (Raised (exn_of err), w1)
    end.
Proof.
  destruct w as [fs hs out tr].
  pose proof (fresh_handle_unused hs) as Hfresh.
  unfold attempt, bind, with_open, py_open, json_load, bind, fp_read, fp_close,
    print, file_events, inspect, log, set_handles, set_stdout;
    cbn [w_fs w_handles w_stdout w_trace].
  destruct (fs !! f) as [[data|err|err]|] eqn:Hf;
    cbn [w_fs w_handles w_stdout w_trace];
    rewrite ?lookup_insert_eq; cbn [w_fs w_handles w_stdout w_trace].
  - destruct (utf8_decode data) as [err|text]; cbn.
    + rewrite delete_insert_id by exact Hfresh. now rewrite <- !app_assoc.
    + destruct (json_loads text) as [err|v]; cbn;
        rewrite delete_insert_id by exact Hfresh; now rewrite <- !app_assoc.
  - cbn. now rewrite app_nil_r.
  - cbn. rewrite delete_insert_id by exact Hfresh. now rewrite <- !app_assoc.
  - cbn. now rewrite app_nil_r.
Qed.

(** What leaves the [try] suite is always an [Exception], so the handler
    takes it. *)
Lemma attempt_raises_Exception (f : string) (e : exn) (w w1 : world) :
  attempt f w = (Raised e, w1) ->
  isinstance_Exception e = true /\ w_stdout w1 = w_stdout w.
Proof.
  rewrite attempt_closed_form. cbv zeta.
  destruct (inspect (w_fs w) f) as [err|v]; [|discriminate].
  now intros [= <- <-].
Qed.

(** The filter of the handler is a real one: an interrupt is not taken. *)
Lemma try_except_passes_interrupt (body : M unit) (handler : exn -> M unit)
    (msg : string) (w w1 : world) :
  body w = (Raised (Exn KeyboardInterrupt msg), w1) ->
  try_except_Exception body handler w = (Raised (Exn KeyboardInterrupt msg), w1).
Proof. unfold try_except_Exception. now intros ->. Qed.

Lemma step_events_released (hs : gmap nat (open_mode * fs_entry))
    (fs : gmap string fs_entry) (f : string) :
  released_before_print [] (step_events hs fs f) = true /\
  opens_read_only (step_events hs fs f) = true.
Proof.
  unfold step_events, file_events.
  destruct (fs !! f) as [[data|err|err]|];
    destruct (inspect fs f); cbn; rewrite ?Nat.eqb_refl; split; reflexivity.
Qed.

Lemma run_events_released (hs : gmap nat (open_mode * fs_entry))
    (fs : gmap string fs_entry) (paths : list string) :
  released_before_print [] (concat (map (step_events hs fs) paths)) = true /\
  opens_read_only (concat (map (step_events hs fs) paths)) = true.
Proof.
  induction paths as [|f rest [IH1 IH2]]; [split; reflexivity|].
  destruct (step_events_released hs fs f) as [H1 H2].
  cbn [map concat]. split.
  - now apply released_before_print_app.
  - now rewrite opens_read_only_app, H2, IH2.
Qed.

(** ** The report of one path *)

(** C1. A path whose file opens, decodes as UTF-8 and parses as JSON gets
    exactly the one line [OK: <path>]: the pass returns normally, the text
    it adds to standard output is that line, and that line is its only
    write. *)
Theorem valid_file_reports_OK (f : string) (data : list byte) (text : string)
    (v : json) (w : world) :
  w_fs w !! f = Some (Regular data) ->
  utf8_decode data = inr text ->
  json_loads text = inr v ->
  fst (check_file f w) = Normal tt /\
  console (check_file f) w = "OK: " +:+ f +:+ newline /\
  w_stdout (snd (check_file f w)) = w_stdout w +:+ "OK: " +:+ f +:+ newline /\
  exists evs, w_trace (snd (check_file f w)) = w_trace w ++ evs /\
              stdout_writes evs = ["OK: " +:+ f +:+ newline].
Proof.
  intros Hf Hd Hj.
  assert (inspect (w_fs w) f = inr v) as Hi.
  { unfold inspect. now rewrite Hf, Hd. }
  rewrite console_check_file, check_file_closed_form, Hi, block_of_ok.
  cbn [fst snd w_stdout w_trace].
  split; [reflexivity|]. split; [reflexivity|]. split; [reflexivity|].
  exists (step_events (w_handles w) (w_fs w) f). split; [reflexivity|].
  unfold step_events, file_events. rewrite Hf, Hi. reflexivity.
Qed.

(** C2, as amended. A path that is missing, unreadable, undecodable or not
    valid JSON gets exactly two lines, [ERROR: <path>] and then the string
    conversion of the failure, whichever stage failed; the second line is
    not the empty line whenever that string conversion is not empty. *)
Theorem failing_file_reports_ERROR (f : string) (err : failure) (w : world) :
  fails_with (w_fs w) f err ->
  fst (check_file f w) = Normal tt /\
  console (check_file f) w =
    "ERROR: " +:+ f +:+ newline +:+ failure_str err +:+ newline /\
  (exists evs, w_trace (snd (check_file f w)) = w_trace w ++ evs /\
               stdout_writes evs =
                 ["ERROR: " +:+ f +:+ newline; failure_str err +:+ newline]) /\
  (failure_str err <> "" ->
   console (check_file f) w <> "ERROR: " +:+ f +:+ newline +:+ newline).
Proof.
  intros Hfail. pose proof Hfail as Hi. apply fails_with_inspect in Hi.
  rewrite console_check_file, check_file_closed_form, Hi, block_of_error.
  cbn [fst snd w_stdout w_trace].
  split; [reflexivity|]. split; [reflexivity|]. split.
  - exists (step_events (w_handles w) (w_fs w) f). split; [reflexivity|].
    unfold step_events, file_events. rewrite Hi.
    destruct (w_fs w !! f) as [[data|e|e]|]; reflexivity.
  - intros Hne Heq. apply Hne, string_app_newline_inv.
    apply (inj (String.app "ERROR: ")), (inj (String.app f)),
      (inj (String.app newline)) in Heq.
    exact Heq.
Qed.

(** C10. When an exception leaves the [try] suite, the pass prints
    [ERROR: <path>] and then exactly [str(e)] and a line end, nothing
    before it and nothing cut from it; when [str(e)] is empty the second
    line is the empty line. *)
Theorem error_line_is_str_of_exception (f : string) (e : exn) (w w1 : world) :
  attempt f w = (Raised e, w1) ->
  fst (check_file f w) = Normal tt /\
  w_stdout (snd (check_file f w)) =
    (w_stdout w1 +:+ "ERROR: " +:+ f +:+ newline) +:+ exn_str e +:+ newline /\
  w_trace (snd (check_file f w)) =
    w_trace w1 ++ [EvStdout ("ERROR: " +:+ f +:+ newline);
                   EvStdout (exn_str e +:+ newline)] /\
  (exn_str e = "" ->
   w_stdout (snd (check_file f w)) =
     (w_stdout w1 +:+ "ERROR: " +:+ f +:+ newline) +:+ newline).
Proof.
  intros Hraise.
  destruct (attempt_raises_Exception _ _ _ _ Hraise) as [Hexc _].
  unfold check_file, try_except_Exception. rewrite Hraise, Hexc.
  unfold report_error, bind, print, log, set_stdout;
    cbn [fst snd w_fs w_handles w_stdout w_trace].
  rewrite <- !app_assoc, !string_app_assoc. cbn [app].
  split; [reflexivity|]. split; [reflexivity|]. split; [reflexivity|].
  intros ->. reflexivity.
Qed.

(** ** The whole run *)

(** C3. The output of a run is the concatenation of one report block per
    path, in the order of the list: the blocks of the run are the blocks of
    the paths taken one by one, none left out, repeated or moved, and the
    empty list prints nothing. *)
Theorem run_reports_each_path_in_order (paths : list string) (w : world) :
  fst (run paths w) = Normal tt /\
  run_blocks paths w = map (fun f => console (check_file f) w) paths /\
  length (run_blocks paths w) = length paths /\
  console (run paths) w = join (run_blocks paths w) /\
  w_stdout (snd (run paths w)) = w_stdout w +:+ join (run_blocks paths w) /\
  console (run []) w = "".
Proof.
  rewrite run_blocks_closed_form, console_run, run_closed_form, length_map.
  cbn [fst snd w_stdout].
  assert (map (fun f => block_of (report_lines (inspect (w_fs w) f) f)) paths =
          map (fun f => console (check_file f) w) paths) as ->.
  { apply map_ext. intros f. now rewrite console_check_file. }
  repeat split; reflexivity.
Qed.

(** C4. The block a path gets depends on that path and its file alone: in
    any two runs that agree on the entry of [f], whatever the other paths,
    the other files and the failures around it, the block at the position
    of [f] is the same, and it is the block of [f] checked on its own. *)
Theorem report_block_isolated (paths paths' : list string) (w w' : world)
    (i j : nat) (f : string) :
  paths !! i = Some f ->
  paths' !! j = Some f ->
  w_fs w !! f = w_fs w' !! f ->
  run_blocks paths w !! i = Some (console (check_file f) w) /\
  run_blocks paths' w' !! j = run_blocks paths w !! i.
Proof.
  intros Hi Hj Hfs. rewrite !run_blocks_closed_form.
  rewrite (lookup_map _ _ _ _ Hi), (lookup_map _ _ _ _ Hj).
  split; [reflexivity|].
  rewrite !console_check_file. now rewrite (inspect_local _ _ _ Hfs).
Qed.

(** C5. Nothing is raised to the caller: every pass of the loop body
    returns normally, in every world, and so does the run over any list of
    paths, which ends after the last path. *)
Theorem run_never_raises (paths : list string) (w : world) :
  (forall f w0, fst (check_file f w0) = Normal tt) /\
  exists w1, run paths w = (Normal tt, w1).
Proof.
  split.
  - intros f w0. now rewrite check_file_closed_form.
  - rewrite run_closed_form. eauto.
Qed.

(** C6. The output is a function of the paths and the files: two worlds
    with the same filesystem give the same text, whatever else differs
    between them, and a second run right after the first prints the same
    text again. *)
Theorem console_output_deterministic (paths : list string) (w w' : world) :
  w_fs w' = w_fs w ->
  console (run paths) w' = console (run paths) w /\
  console (run paths) (snd (run paths w)) = console (run paths) w.
Proof.
  intros Hfs. rewrite !console_run, run_closed_form. cbn [snd w_fs].
  now rewrite Hfs.
Qed.

(** C7. The process exits with status 0 in every state of the filesystem,
    however many of the files fail. *)
Theorem exit_status_zero (w : world) : fst (main w) = Exit 0.
Proof. unfold main, script. now rewrite run_closed_form. Qed.

(** C8. Every handle a pass acquires is released before the pass prints:
    the pass leaves the table of open handles and the filesystem as it
    found them, no handle is open at any of its writes to standard output,
    and it opens nothing for writing.  The same holds of the whole run. *)
Theorem handle_released_and_files_untouched (f : string) (paths : list string)
    (w : world) :
  (w_fs (snd (check_file f w)) = w_fs w /\
   w_handles (snd (check_file f w)) = w_handles w /\
   exists evs, w_trace (snd (check_file f w)) = w_trace w ++ evs /\
               released_before_print [] evs = true /\
               opens_read_only evs = true) /\
  (w_fs (snd (run paths w)) = w_fs w /\
   w_handles (snd (run paths w)) = w_handles w /\
   exists evs, w_trace (snd (run paths w)) = w_trace w ++ evs /\
               released_before_print [] evs = true /\
               opens_read_only evs = true).
Proof.
  rewrite check_file_closed_form, run_closed_form.
  cbn [snd w_fs w_handles w_trace].
  split; (split; [reflexivity|]; split; [reflexivity|]).
  - exists (step_events (w_handles w) (w_fs w) f).
    split; [reflexivity | apply step_events_released].
  - exists (concat (map (step_events (w_handles w) (w_fs w)) paths)).
    split; [reflexivity | apply run_events_released].
Qed.

(** C9. The configured list is the ja-JP locale file followed by the en-US
    one, so a run of the script prints two blocks, for those two paths in
    that order. *)
Theorem script_checks_two_locale_files (w : world) :
  files =
    ["d:/download/VRC-Worlds-Manager-v2-vrc-world-manager-v1.3.0-rc.0/locales/ja-JP.json";
     "d:/download/VRC-Worlds-Manager-v2-vrc-world-manager-v1.3.0-rc.0/locales/en-US.json"] /\
  length (run_blocks files w) = 2 /\
  run_blocks files w =
    [console (check_file
       "d:/download/VRC-Worlds-Manager-v2-vrc-world-manager-v1.3.0-rc.0/locales/ja-JP.json") w;
     console (check_file
       "d:/download/VRC-Worlds-Manager-v2-vrc-world-manager-v1.3.0-rc.0/locales/en-US.json") w] /\
  console script w = join (run_blocks files w).
Proof.
  unfold script. rewrite console_run, run_blocks_closed_form.
  split; [reflexivity|]. split; [reflexivity|]. split; [reflexivity|].
  f_equal. apply map_ext. intros f. now rewrite console_check_file.
Qed.

End Properties.

(** * The scenarios, run *)

Section Scenarios.
#[local] Existing Instance scenario_runtime.

Example scenario_transcript :
  console (run ["a.json"; "b.json"; "missing.json"]) scenario_world =
    join ["OK: a.json" +:+ newline;
          "ERROR: b.json" +:+ newline;
          "Expecting value: line 1 column 7 (char 6)" +:+ newline;
          "ERROR: missing.json" +:+ newline;
          "[Errno 2] No such file or directory: 'missing.json'" +:+ newline].
Proof. vm_compute. reflexivity. Qed.

Example scenario_empty_list : console (run []) scenario_world = "".
Proof. reflexivity. Qed.

Lemma valid_file_reports_OK_witness :
  w_fs scenario_world !! "a.json" = Some (Regular bytes_a_json) /\
  utf8_decode bytes_a_json = inr (string_of_list_byte bytes_a_json) /\
  json_loads (string_of_list_byte bytes_a_json) = inr (JObject [("k", JString "v")]) /\
  console (check_file "a.json") scenario_world = "OK: a.json" +:+ newline.
Proof.
  assert (w_fs scenario_world !! "a.json" = Some (Regular bytes_a_json)) as Hf
    by (vm_compute; reflexivity).
  assert (utf8_decode bytes_a_json = inr (string_of_list_byte bytes_a_json)) as Hd
    by (vm_compute; reflexivity).
  assert (json_loads (string_of_list_byte bytes_a_json) =
          inr (JObject [("k", JString "v")])) as Hj
    by (vm_compute; reflexivity).
  split; [exact Hf|]. split; [exact Hd|]. split; [exact Hj|].
  exact (proj1 (proj2 (valid_file_reports_OK "a.json" _ _ _ scenario_world Hf Hd Hj))).
Defined.

(** C2, as first stated, asks for a message line that is never empty.  A
    file too large to be read into memory is unreadable: [read] raises
    [MemoryError()], whose string conversion is empty, and the second line
    of the report is the empty line. *)
Lemma empty_message_line_counterexample :
  fails_with (w_fs scenario_world) "big.json" (Failure MemoryError "") /\
  console (check_file "big.json") scenario_world =
    "ERROR: big.json" +:+ newline +:+ newline /\
  ~ (exists msg : string,
       msg <> "" /\
       console (check_file "big.json") scenario_world =
         "ERROR: big.json" +:+ newline +:+ msg +:+ newline).
Proof.
  assert (console (check_file "big.json") scenario_world =
          "ERROR: big.json" +:+ newline +:+ newline) as Hout
    by (vm_compute; reflexivity).
  split; [apply Unreadable; vm_compute; reflexivity|].
  split; [exact Hout|].
  intros (msg & Hne & Heq). rewrite Hout in Heq.
  apply (inj (String.app "ERROR: big.json")), (inj (String.app newline)) in Heq.
  symmetry in Heq. now apply string_app_newline_inv in Heq.
Qed.

Lemma failing_file_reports_ERROR_witness :
  fails_with (w_fs scenario_world) "b.json"
    (Failure JSONDecodeError "Expecting value: line 1 column 7 (char 6)") /\
  console (check_file "b.json") scenario_world =
    "ERROR: b.json" +:+ newline +:+
    "Expecting value: line 1 column 7 (char 6)" +:+ newline.
Proof.
  assert (fails_with (w_fs scenario_world) "b.json"
            (Failure JSONDecodeError "Expecting value: line 1 column 7 (char 6)"))
    as Hfail.
  { apply (InvalidJSON _ _ bytes_b_json (string_of_list_byte bytes_b_json));
      vm_compute; reflexivity. }
  split; [exact Hfail|].
  exact (proj1 (proj2 (failing_file_reports_ERROR "b.json" _ scenario_world Hfail))).
Defined.

Lemma error_line_is_str_of_exception_witness :
  attempt "big.json" scenario_world =
    (Raised (Exn (Exception MemoryError) ""),
     World scenario_fs ∅ "" [EvOpen "big.json" ModeRead 0; EvRead 0; EvClose 0]) /\
  w_stdout (snd (check_file "big.json" scenario_world)) =
    "ERROR: big.json" +:+ newline +:+ newline.
Proof.
  assert (attempt "big.json" scenario_world =
            (Raised (Exn (Exception MemoryError) ""),
             World scenario_fs ∅ ""
               [EvOpen "big.json" ModeRead 0; EvRead 0; EvClose 0])) as Hraise
    by (vm_compute; reflexivity).
  split; [exact Hraise|].
  exact (proj2 (proj2 (proj2
           (error_line_is_str_of_exception "big.json" _ scenario_world _ Hraise)))
         eq_refl).
Defined.

Lemma report_block_isolated_witness :
  ["missing.json"; "b.json"; "a.json"] !! 2 = Some "a.json" /\
  ["a.json"] !! 0 = Some "a.json" /\
  w_fs scenario_world !! "a.json" = w_fs other_world !! "a.json" /\
  run_blocks ["missing.json"; "b.json"; "a.json"] scenario_world !! 2 =
    Some (console (check_file "a.json") scenario_world) /\
  run_blocks ["a.json"] other_world !! 0 =
    run_blocks ["missing.json"; "b.json"; "a.json"] scenario_world !! 2.
Proof.
  assert (["missing.json"; "b.json"; "a.json"] !! 2 = Some "a.json") as Hi
    by reflexivity.
  assert (["a.json"] !! 0 = Some "a.json") as Hj by reflexivity.
  assert (w_fs scenario_world !! "a.json" = w_fs other_world !! "a.json") as Hfs
    by (vm_compute; reflexivity).
  split; [exact Hi|]. split; [exact Hj|]. split; [exact Hfs|].
  exact (report_block_isolated _ _ scenario_world other_world 2 0 "a.json" Hi Hj Hfs).
Defined.

Lemma console_output_deterministic_witness :
  w_fs busy_world = w_fs scenario_world /\
  console (run ["a.json"; "b.json"; "missing.json"]) busy_world =
    console (run ["a.json"; "b.json"; "missing.json"]) scenario_world /\
  console (run ["a.json"; "b.json"; "missing.json"])
      (snd (run ["a.json"; "b.json"; "missing.json"] scenario_world)) =
    console (run ["a.json"; "b.json"; "missing.json"]) scenario_world.
Proof.
  assert (w_fs busy_world = w_fs scenario_world) as Hfs by reflexivity.
  split; [exact Hfs|].
  exact (console_output_deterministic
           ["a.json"; "b.json"; "missing.json"] scenario_world busy_world Hfs).
Defined.

End Scenarios.

(** * Further properties of the script *)



Lemma stdout_writes_app (evs evs' : list event) :
  stdout_writes (evs ++ evs') = stdout_writes evs ++ stdout_writes evs'.
Proof.
  induction evs as [|ev evs IH]; [reflexivity|].
  destruct ev; cbn [app stdout_writes]; rewrite IH; reflexivity.
Qed.

Lemma for_each_app (l l' : list string) (body : string -> M unit) (w : world) :
  for_each (l ++ l') body w =
    match for_each l body w with
    | (Normal _, w1) => for_each l' body w1
    | (Raised e, w1) => (Raised e, w1)
    end.
Proof.
  revert w. induction l as [|x l IH]; intros w; [reflexivity|].
  cbn [app for_each]. unfold bind.
  destruct (body x w) as [[[]|e] w1]; [apply IH | reflexivity].
Qed.

Section MoreProperties.
Context `{Runtime}.

Lemma inspect_passes_inv (fs : gmap string fs_entry) (f : string) (v : json) :
  inspect fs f = inr v ->
  exists data text,
    fs !! f = Some (Regular data) /\ utf8_decode data = inr text /\
    json_loads text = inr v.
Proof.
  unfold inspect. destruct (fs !! f) as [[data|err|err]|]; try discriminate.
  destruct (utf8_decode data) as [err|text] eqn:Hd; [discriminate|].
  intros Hj. exists data, text. auto.
Qed.

Lemma step_events_cycle (hs : gmap nat (open_mode * fs_entry))
    (fs : gmap string fs_entry) (f : string) :
  io_run Idle (step_events hs fs f) = Some Idle /\
  opens (step_events hs fs f) = (if openable fs f then 1 else 0) /\
  length (stdout_writes (step_events hs fs f)) = (if passes fs f then 1 else 2).
Proof.
  unfold step_events, file_events, openable, passes.
  generalize (fresh (dom hs)). intros h.
  destruct (fs !! f) as [[data|err|err]|];
    destruct (inspect fs f);
    repeat (cbn [app map report_lines io_run io_step opens stdout_writes length];
            rewrite ?Nat.eqb_refl);
    repeat split; reflexivity.
Qed.

(** X1. An [OK] line is never printed for a file that did not open, decode
    and parse: when the block of a path is [OK: <path>], the path names a
    regular file whose bytes decode as UTF-8 to a text that [json.loads]
    accepts. *)
Theorem ok_line_only_for_valid_file (f : string) (w : world) :
  console (check_file f) w = "OK: " +:+ f +:+ newline ->
  exists data text v,
    w_fs w !! f = Some (Regular data) /\
    utf8_decode data = inr text /\
    json_loads text = inr v.
Proof.
  rewrite console_check_file.
  destruct (inspect (w_fs w) f) as [err|v] eqn:Hi.
  - rewrite block_of_error. intros Heq.
    apply (f_equal (String.get 0)) in Heq. discriminate Heq.
  - intros _. destruct (inspect_passes_inv _ _ _ Hi) as (data & text & Hf & Hd & Hj).
    exists data, text, v. auto.
Qed.

(** X2. Checking a list in two parts is checking it whole: the run over
    [paths ++ paths'] is the run over [paths] followed by the run over
    [paths'], and its output is the two outputs one after the other. *)
Theorem run_app (paths paths' : list string) (w : world) :
  run (paths ++ paths') w = run paths' (snd (run paths w)) /\
  console (run (paths ++ paths')) w =
    console (run paths) w +:+ console (run paths') w.
Proof.
  rewrite !console_run, !run_closed_form.
  cbn [snd w_fs w_handles w_stdout w_trace].
  rewrite !map_app, join_app, concat_app, string_app_assoc, <- app_assoc.
  split; reflexivity.
Qed.


(** X4. When [open] raises, the pass touches no file: no handle is made,
    nothing is read, and the only effects are the two lines of the report,
    the second being the text of the exception [open] raised. *)
Theorem open_failure_touches_no_file (f : string) (e : exn) (w w1 : world) :
  py_open f ModeRead w = (Raised e, w1) ->
  w1 = w /\
  check_file f w =
    (Normal tt,
     World (w_fs w) (w_handles w)
       (w_stdout w +:+ "ERROR: " +:+ f +:+ newline +:+ exn_str e +:+ newline)
       (w_trace w ++ [EvStdout ("ERROR: " +:+ f +:+ newline);
                      EvStdout (exn_str e +:+ newline)])).
Proof.
  rewrite check_file_closed_form.
  unfold py_open, step_events, file_events, inspect.
  destruct (w_fs w !! f) as [[data|err|err]|]; try discriminate;
    intros [= <- <-]; (split; [reflexivity|]);
    now rewrite block_of_error.
Qed.

(** X5. Files that are not in the list do not matter: two worlds that
    agree on the entry of every listed path give the same output, whatever
    else their filesystems hold. *)
Theorem unlisted_files_do_not_matter (paths : list string) (w w' : world) :
  (forall f, f ∈ paths -> w_fs w !! f = w_fs w' !! f) ->
  console (run paths) w = console (run paths) w'.
Proof.
  intros Hagree. rewrite !console_run. f_equal.
  induction paths as [|f rest IH]; [reflexivity|].
  cbn [map]. rewrite (inspect_local _ _ _ (Hagree f (list_elem_of_here _ _))).
  f_equal. apply IH. intros g Hg. apply Hagree. now apply list_elem_of_further.
Qed.

(** X6. A run prints once for each path that passes and twice for each
    path that fails, and nothing else: the number of its writes to
    standard output is the length of the list plus the number of failing
    paths. *)
Theorem one_print_per_pass_two_per_failure (paths : list string) (w : world) :
  exists evs,
    w_trace (snd (run paths w)) = w_trace w ++ evs /\
    length (stdout_writes evs) =
      length paths +
      length (List.filter (fun f => negb (passes (w_fs w) f)) paths).
Proof.
  rewrite run_closed_form. cbn [snd w_trace].
  exists (concat (map (step_events (w_handles w) (w_fs w)) paths)).
  split; [reflexivity|].
  induction paths as [|f rest IH]; [reflexivity|].
  destruct (step_events_cycle (w_handles w) (w_fs w) f) as (_ & _ & Hn).
  cbn [map concat List.filter length].
  rewrite stdout_writes_app, length_app, Hn, IH.
  destruct (passes (w_fs w) f); cbn [negb length]; lia.
Qed.

(** X7. The handler takes [Exception]s only.  When the [try] suite of some
    path ends in a [KeyboardInterrupt], after the paths before it were
    checked, the handler does not run and prints nothing, the paths after
    it are not checked, the exception leaves the loop with the world as
    the suite left it, and the process does not exit with a status. *)
Theorem interrupt_is_not_caught (body : string -> M unit)
    (before after : list string) (f : string) (msg : string) (w w1 w2 : world) :
  for_each before (fun g => try_except_Exception (body g) (report_error g)) w =
    (Normal tt, w1) ->
  body f w1 = (Raised (Exn KeyboardInterrupt msg), w2) ->
  for_each (before ++ f :: after)
    (fun g => try_except_Exception (body g) (report_error g)) w =
    (Raised (Exn KeyboardInterrupt msg), w2) /\
  exit_status
    (fst (for_each (before ++ f :: after)
            (fun g => try_except_Exception (body g) (report_error g)) w)) =
    Interrupted.
Proof.
  intros Hbefore Hraise.
  assert (for_each (before ++ f :: after)
            (fun g => try_except_Exception (body g) (report_error g)) w =
          (Raised (Exn KeyboardInterrupt msg), w2)) as Hloop.
  { rewrite for_each_app, Hbefore. cbn [for_each]. unfold bind.
    unfold try_except_Exception at 1. now rewrite Hraise. }
  split; [exact Hloop|]. now rewrite Hloop.
Qed.

End MoreProperties.

Section MoreScenarios.
#[local] Existing Instance scenario_runtime.

Example scenario_interrupted :
  console
    (for_each ["a.json"; "b.json"; "missing.json"]
       (fun g => try_except_Exception (attempt_interrupted_at "b.json" g)
                   (report_error g)))
    scenario_world = "OK: a.json" +:+ newline.
Proof. vm_compute. reflexivity. Qed.

Lemma ok_line_only_for_valid_file_witness :
  console (check_file "a.json") scenario_world = "OK: a.json" +:+ newline /\
  exists data text v,
    w_fs scenario_world !! "a.json" = Some (Regular data) /\
    utf8_decode data = inr text /\
    json_loads text = inr v.
Proof.
  assert (console (check_file "a.json") scenario_world =
          "OK: " +:+ "a.json" +:+ newline) as Hok
    by (vm_compute; reflexivity).
  split; [exact Hok|].
  exact (ok_line_only_for_valid_file "a.json" scenario_world Hok).
Defined.

Lemma open_failure_touches_no_file_witness :
  py_open "locked.json" ModeRead scenario_world =
    (Raised (Exn (Exception PermissionError)
               "[Errno 13] Permission denied: 'locked.json'"),
     scenario_world) /\
  check_file "locked.json" scenario_world =
    (Normal tt,
     World scenario_fs ∅
       ("ERROR: locked.json" +:+ newline +:+
        "[Errno 13] Permission denied: 'locked.json'" +:+ newline)
       [EvStdout ("ERROR: locked.json" +:+ newline);
        EvStdout ("[Errno 13] Permission denied: 'locked.json'" +:+ newline)]).
Proof.
  assert (py_open "locked.json" ModeRead scenario_world =
            (Raised (Exn (Exception PermissionError)
                       "[Errno 13] Permission denied: 'locked.json'"),
             scenario_world)) as Hopen
    by (vm_compute; reflexivity).
  split; [exact Hopen|].
  exact (proj2 (open_failure_touches_no_file "locked.json" _ scenario_world _ Hopen)).
Defined.

Lemma unlisted_files_do_not_matter_witness :
  (forall f, f ∈ ["a.json"] -> w_fs scenario_world !! f = w_fs other_world !! f) /\
  console (run ["a.json"]) scenario_world = console (run ["a.json"]) other_world.
Proof.
  assert (forall f, f ∈ ["a.json"] ->
                    w_fs scenario_world !! f = w_fs other_world !! f) as Hagree.
  { intros f Hf. apply list_elem_of_singleton in Hf. subst f.
    vm_compute. reflexivity. }
  split; [exact Hagree|].
  exact (unlisted_files_do_not_matter ["a.json"] scenario_world other_world Hagree).
Defined.

Lemma interrupt_is_not_caught_witness :
  for_each ["a.json"]
    (fun g => try_except_Exception (attempt_interrupted_at "b.json" g)
                (report_error g)) scenario_world =
    (Normal tt,
     World scenario_fs ∅ ("OK: a.json" +:+ newline)
       [EvOpen "a.json" ModeRead 0; EvRead 0; EvClose 0;
        EvStdout ("OK: a.json" +:+ newline)]) /\
  for_each (["a.json"] ++ "b.json" :: ["missing.json"])
    (fun g => try_except_Exception (attempt_interrupted_at "b.json" g)
                (report_error g)) scenario_world =
    (Raised (Exn KeyboardInterrupt ""),
     World scenario_fs ∅ ("OK: a.json" +:+ newline)
       [EvOpen "a.json" ModeRead 0; EvRead 0; EvClose 0;
        EvStdout ("OK: a.json" +:+ newline)]).
Proof.
  assert (for_each ["a.json"]
            (fun g => try_except_Exception (attempt_interrupted_at "b.json" g)
                        (report_error g)) scenario_world =
          (Normal tt,
           World scenario_fs ∅ ("OK: a.json" +:+ newline)
             [EvOpen "a.json" ModeRead 0; EvRead 0; EvClose 0;
              EvStdout ("OK: a.json" +:+ newline)])) as Hbefore
    by (vm_compute; reflexivity).
  split; [exact Hbefore|].
  exact (proj1 (interrupt_is_not_caught (attempt_interrupted_at "b.json")
                  ["a.json"] ["missing.json"] "b.json" ""
                  scenario_world _ _ Hbefore eq_refl)).
Defined.

End MoreScenarios.
